(** * Breagle TV lift: the BLE cover entity of
      [homeassistant/components/breagle/cover.py]

    The entity [BreagleBT] owns one BLE client handle, an availability flag
    and an optimistic position flag.  Its coroutines are embedded as
    computations of a small state-and-exception monad over

    - the entity's own attributes ([BreagleBT]),
    - the state of the BLE stack, reached only through the [Transport]
      interface (bleak / bleak_retry_connector are not part of the
      integration), and
    - a chronological trace of the calls made to the two collaborators
      (BLE stack and host), with their results.

    Each coroutine runs from call to return without another one in between;
    the disconnect callback of the BLE stack is a call of its own
    ([diconnected_cb]) between two of them.

    Python's [None] is [None] of an [option]; an exception is the [Raise]
    outcome.  The BLE stack signals every failure with [BleakError]; the
    interpreter itself raises [AttributeError] on an attribute access on
    [None].  [_LOGGER.error] calls are kept in the trace, with the message
    they are given (the text of the exception comes from the BLE stack);
    debug and info logging is left out. *)

From Stdlib Require Import List String Ascii Bool Arith NArith Lia.
From Stdlib.Strings Require Import Byte.
Import ListNotations.
Local Open Scope string_scope.
Local Open Scope list_scope.

(** ** const.py *)

Definition DOMAIN : string := "breagle".
Definition MODEL_TVLIFT : string := "Breagle".
Definition MODEL_UNKNOWN : string := "Unknown".

(** ** Module constants of cover.py *)

Definition CONTROL_UUID : string := "0000ffe1-0000-1000-8000-00805f9b34fb".
Definition NOTIFY_UUID : string := "0000ffe1-0000-1000-8000-00805f9b34fb".

(** [ble_name.startswith("limoss")] *)
Definition model_from_name (ble_name : string) : string :=
  if String.prefix "limoss" ble_name then MODEL_TVLIFT else MODEL_UNKNOWN.

(** ** [bytes.fromhex] *)

Definition hex_digit (c : ascii) : option N :=
  let n := N_of_ascii c in
  if ((48 <=? n) && (n <=? 57))%N then Some (n - 48)%N
  else if ((65 <=? n) && (n <=? 70))%N then Some (n - 55)%N
  else if ((97 <=? n) && (n <=? 102))%N then Some (n - 87)%N
  else None.

(** ASCII whitespace, which [bytes.fromhex] skips between bytes. *)
Definition is_space (c : ascii) : bool :=
  let n := N_of_ascii c in
  ((n =? 32) || ((9 <=? n) && (n <=? 13)))%N.

(** [None] stands for the [ValueError] of a malformed literal. *)
Fixpoint bytes_fromhex (s : string) : option (list byte) :=
  match s with
  | EmptyString => Some []
  | String c1 rest =>
      if is_space c1 then bytes_fromhex rest
      else
        match rest with
        | EmptyString => None
        | String c2 rest' =>
            match hex_digit c1, hex_digit c2 with
            | Some h, Some l =>
                match Byte.of_N (16 * h + l), bytes_fromhex rest' with
                | Some b, Some bs => Some (b :: bs)
                | _, _ => None
                end
            | _, _ => None
            end
        end
  end.

(** The two literals of [async_close_cover] and [async_open_cover]. *)
Definition CLOSE_HEX : string := "DDA212A0446A3DBFC7A2".
Definition OPEN_HEX : string := "DD29CCEA3FEE319C540A".

(** ** The BLE stack as an interface *)

(** A client handle ([BleakClient] object), named by a number. *)
Definition Client := nat.

Record BLEDevice := mkBLEDevice {
  address : string;
  name : string
}.

(** What the entity uses of bleak and bleak_retry_connector.  [world] is the
    state of the BLE stack and of the radio link.  A result [None] / [false]
    is a raised [BleakError]. *)
Record Transport := mkTransport {
  world : Type;
  (** [establish_connection(BleakClient, device=, name=, max_attempts=)] *)
  establish_connection :
    BLEDevice -> string -> nat -> world -> option Client * world;
  (** [client.is_connected] *)
  is_connected : Client -> world -> bool;
  (** [client.disconnect()] *)
  client_disconnect : Client -> world -> bool * world;
  (** [client.write_gatt_char(uuid, data)] *)
  write_gatt_char : Client -> string -> list byte -> world -> bool * world;
  (** [str(err)] of the [BleakError] a call has just raised, read off the
      stack the failed call leaves behind *)
  error_text : world -> string
}.

(** ** Exceptions, trace *)

Inductive exn := BleakError | AttributeError | ValueError.

Inductive outcome (A : Type) :=
| Return (a : A)
| Raise (e : exn).
Arguments Return {A} a.
Arguments Raise {A} e.

Inductive event :=
| EstablishConnection (max_attempts : nat) (r : option Client)
| ClientDisconnect (c : Client) (ok : bool)
| WriteGattChar (c : Client) (uuid : string) (data : list byte) (ok : bool)
| WriteHaState (available is_closed : option bool)
| LogError (msg : string)
| ListenOnceStop
| ScheduleUpdateHaState (force_refresh : bool).

(** ** The entity *)

Record BreagleBT := mkBreagleBT {
  _client : option Client;
  _ble_device : BLEDevice;
  _name : string;
  _mac : string;
  _is_closed : option bool;
  _available : option bool;
  _model : string
}.

(** [__init__]; [entity_id] is computed by the host and not kept here. *)
Definition __init__ (nm : string) (ble_device : BLEDevice) : BreagleBT :=
  {| _client := None;
     _ble_device := ble_device;
     _name := nm;
     _mac := address ble_device;
     _is_closed := None;
     _available := None;
     _model := model_from_name (name ble_device) |}.

(** The properties. *)
Definition available (e : BreagleBT) : option bool := _available e.
Definition is_closed (e : BreagleBT) : option bool := _is_closed e.
Definition unique_id (e : BreagleBT) : string := _mac e.
Definition should_poll (e : BreagleBT) : bool := true.

(** Truth value of an attribute that is [None], [True] or [False]. *)
Definition truthy (v : option bool) : bool :=
  match v with Some true => true | _ => false end.

Definition with_client (c : option Client) (e : BreagleBT) : BreagleBT :=
  {| _client := c; _ble_device := _ble_device e; _name := _name e;
     _mac := _mac e; _is_closed := _is_closed e;
     _available := _available e; _model := _model e |}.

Definition with_available (v : option bool) (e : BreagleBT) : BreagleBT :=
  {| _client := _client e; _ble_device := _ble_device e; _name := _name e;
     _mac := _mac e; _is_closed := _is_closed e;
     _available := v; _model := _model e |}.

Definition with_is_closed (v : option bool) (e : BreagleBT) : BreagleBT :=
  {| _client := _client e; _ble_device := _ble_device e; _name := _name e;
     _mac := _mac e; _is_closed := v;
     _available := _available e; _model := _model e |}.

Section Entity.

Context (T : Transport).

(** Entity, BLE stack and the trace so far (oldest event first). *)
Record Sys := mkSys {
  self : BreagleBT;
  net : world T;
  trace : list event
}.

Definition M (A : Type) := Sys -> outcome A * Sys.

Definition ret {A} (a : A) : M A := fun s => (Return a, s).

Definition raise {A} (e : exn) : M A := fun s => (Raise e, s).

Definition bind {A B} (m : M A) (k : A -> M B) : M B :=
  fun s =>
    match m s with
    | (Return a, s') => k a s'
    | (Raise e, s') => (Raise e, s')
    end.

(** [try: body  except BleakError: handler]; any other exception goes on. *)
Definition try_except_BleakError {A} (body handler : M A) : M A :=
  fun s =>
    match body s with
    | (Raise BleakError, s') => handler s'
    | r => r
    end.

Notation "x <- m ;; k" := (bind m (fun x => k))
  (at level 61, m at next level, right associativity).
Notation "m ;; k" := (bind m (fun _ => k))
  (at level 61, right associativity).

Definition get_self : M BreagleBT := fun s => (Return (self s), s).

Definition modify_self (f : BreagleBT -> BreagleBT) : M unit :=
  fun s => (Return tt, {| self := f (self s); net := net s; trace := trace s |}).

Definition emit (ev : event) : M unit :=
  fun s => (Return tt,
            {| self := self s; net := net s; trace := trace s ++ [ev] |}).

(** [_LOGGER.error] *)
Definition log_error (msg : string) : M unit := emit (LogError msg).

(** [_LOGGER.error(f"<prefix>{err}")] in a handler of [BleakError]: the
    handler starts in the state the failed call left. *)
Definition log_bleak_error (prefix : string) : M unit :=
  fun s => log_error (String.append prefix (error_text T (net s))) s.

(** [self.async_write_ha_state()]: the host reads the two properties. *)
Definition async_write_ha_state : M unit :=
  e <- get_self ;;
  emit (WriteHaState (available e) (is_closed e)).

(** *** Calls into the BLE stack *)

Definition call_establish_connection (max_attempts : nat) : M Client :=
  fun s =>
    let '(r, w) :=
      establish_connection T (_ble_device (self s)) (_mac (self s))
        max_attempts (net s) in
    let s' := {| self := self s; net := w;
                 trace := trace s ++ [EstablishConnection max_attempts r] |} in
    match r with
    | Some c => (Return c, s')
    | None => (Raise BleakError, s')
    end.

Definition call_is_connected (c : Client) : M bool :=
  fun s => (Return (is_connected T c (net s)), s).

Definition call_client_disconnect (c : Client) : M unit :=
  fun s =>
    let '(ok, w) := client_disconnect T c (net s) in
    let s' := {| self := self s; net := w;
                 trace := trace s ++ [ClientDisconnect c ok] |} in
    if ok then (Return tt, s') else (Raise BleakError, s').

Definition call_write_gatt_char (c : Client) (uuid : string)
    (data : list byte) : M unit :=
  fun s =>
    let '(ok, w) := write_gatt_char T c uuid data (net s) in
    let s' := {| self := self s; net := w;
                 trace := trace s ++ [WriteGattChar c uuid data ok] |} in
    if ok then (Return tt, s') else (Raise BleakError, s').

(** *** The methods *)

Definition disconnect : M unit :=
  e <- get_self ;;
  match _client e with
  | None => ret tt
  | Some c =>
      try_except_BleakError
        (call_client_disconnect c)
        (log_bleak_error "Disconnection: BleakError: ") ;;
      modify_self (with_available (Some false)) ;;
      async_write_ha_state
  end.

(** [num_tries] is a parameter of the method (default 3) that its body never
    reads. *)
Definition connect (num_tries : nat) : M unit :=
  e <- get_self ;;
  match _client e with
  | Some c =>
      live <- call_is_connected c ;;
      if negb live then disconnect else ret tt
  | None => ret tt
  end ;;
  try_except_BleakError
    (e <- get_self ;;
     match _client e with
     | Some _ => disconnect
     | None => ret tt
     end ;;
     c <- call_establish_connection 4 ;;
     modify_self (with_client (Some c)) ;;
     modify_self (with_available (Some true)) ;;
     async_write_ha_state)
    (log_bleak_error "Connection: BleakError: ").

(** The callback handed to [establish_connection]; the BLE stack calls it
    between the entity's own coroutines. *)
Definition diconnected_cb (client : Client) : M unit :=
  modify_self (with_available (Some false)) ;;
  async_write_ha_state.

Definition async_update : M unit :=
  e <- get_self ;;
  if negb (truthy (_available e)) then connect 3 else ret tt.

Definition send_cmd (bits : list byte) : M bool :=
  e <- get_self ;;
  (if negb (truthy (_available e)) then connect 3 else ret tt) ;;
  try_except_BleakError
    (e <- get_self ;;
     match _client e with
     | None => raise AttributeError
     | Some c =>
         call_write_gatt_char c CONTROL_UUID bits ;;
         ret true
     end)
    (log_bleak_error "Send Cmd: BleakError: " ;;
     ret false).

Definition async_close_cover : M unit :=
  match bytes_fromhex CLOSE_HEX with
  | None => raise ValueError
  | Some bits =>
      send_cmd bits ;;
      modify_self (with_is_closed (Some true)) ;;
      async_write_ha_state
  end.

Definition async_open_cover : M unit :=
  match bytes_fromhex OPEN_HEX with
  | None => raise ValueError
  | Some bits =>
      send_cmd bits ;;
      modify_self (with_is_closed (Some false)) ;;
      async_write_ha_state
  end.

Definition async_added_to_hass : M unit :=
  emit ListenOnceStop ;;
  emit (ScheduleUpdateHaState true) ;;
  try_except_BleakError (connect 3) (ret tt).

Definition async_will_remove_from_hass : M unit :=
  try_except_BleakError disconnect (ret tt).

(** *** Calls as data, to speak of arbitrary histories *)

Inductive call :=
| Connect (num_tries : nat)
| Disconnect
| DisconnectedCb (client : Client)
| AsyncUpdate
| SendCmd (bits : list byte)
| AsyncCloseCover
| AsyncOpenCover
| AsyncAddedToHass
| AsyncWillRemoveFromHass.

Definition perform (c : call) : M unit :=
  match c with
  | Connect n => connect n
  | Disconnect => disconnect
  | DisconnectedCb cl => diconnected_cb cl
  | AsyncUpdate => async_update
  | SendCmd bits => send_cmd bits ;; ret tt
  | AsyncCloseCover => async_close_cover
  | AsyncOpenCover => async_open_cover
  | AsyncAddedToHass => async_added_to_hass
  | AsyncWillRemoveFromHass => async_will_remove_from_hass
  end.

(** An exception ends the call that raised it; the entity lives on. *)
Definition after (c : call) (s : Sys) : Sys := snd (perform c s).

Definition run (cs : list call) (s : Sys) : Sys :=
  fold_left (fun s c => after c s) cs s.

Definition is_cover_command (c : call) : bool :=
  match c with
  | AsyncCloseCover | AsyncOpenCover => true
  | _ => false
  end.

Definition returned {A} (o : outcome A) : bool :=
  match o with
  | Return _ => true
  | Raise _ => false
  end.

(** Some [async_open_cover] or [async_close_cover] of the history came
    back without an exception. *)
Fixpoint commanded (cs : list call) (s : Sys) : bool :=
  match cs with
  | [] => false
  | c :: cs' =>
      (is_cover_command c && returned (fst (perform c s)))
      || commanded cs' (after c s)
  end.

End Entity.

Arguments self {T} s.
Arguments net {T} s.
Arguments trace {T} s.
Arguments mkSys {T} self net trace.

(** ** Reading a trace *)

Definition establish_log (tr : list event) : list (nat * option Client) :=
  flat_map (fun ev => match ev with
                      | EstablishConnection n r => [(n, r)]
                      | _ => []
                      end) tr.

Definition teardown_log (tr : list event) : list (Client * bool) :=
  flat_map (fun ev => match ev with
                      | ClientDisconnect c ok => [(c, ok)]
                      | _ => []
                      end) tr.

Definition write_log (tr : list event)
  : list (Client * string * list byte * bool) :=
  flat_map (fun ev => match ev with
                      | WriteGattChar c u d ok => [(c, u, d, ok)]
                      | _ => []
                      end) tr.

Definition publish_log (tr : list event) : list (option bool * option bool) :=
  flat_map (fun ev => match ev with
                      | WriteHaState a c => [(a, c)]
                      | _ => []
                      end) tr.

(** The writes that went through, and those that raised. *)
Definition written (tr : list event) : list (string * list byte) :=
  map (fun w => (snd (fst (fst w)), snd (fst w)))
      (filter (fun w => snd w) (write_log tr)).

Definition failed_writes (tr : list event)
  : list (Client * string * list byte * bool) :=
  filter (fun w => negb (snd w)) (write_log tr).

Definition error_log (tr : list event) : list string :=
  flat_map (fun ev => match ev with
                      | LogError m => [m]
                      | _ => []
                      end) tr.

(** ** A concrete BLE stack

    A scripted radio link to run the entity on.  [attempts] gives the
    outcome of the connection attempts still to come (none left: the
    attempt fails); [establish_connection] tries up to [max_attempts] times.
    A teardown that fails leaves the session up; a write goes through on a
    session that is up, unless [write_ok] is off. *)

Module Link.

Record state := mkState {
  attempts : list bool;
  teardown_ok : bool;
  write_ok : bool;
  linked : list Client;
  fresh : Client;
  attempted : nat
}.

Fixpoint establish (max_attempts : nat) (w : state) : option Client * state :=
  match max_attempts with
  | 0 => (None, w)
  | S n =>
      match attempts w with
      | true :: rest =>
          (Some (fresh w),
           {| attempts := rest; teardown_ok := teardown_ok w;
              write_ok := write_ok w; linked := fresh w :: linked w;
              fresh := S (fresh w); attempted := S (attempted w) |})
      | rest =>
          establish n
            {| attempts := tl rest; teardown_ok := teardown_ok w;
               write_ok := write_ok w; linked := linked w;
               fresh := fresh w; attempted := S (attempted w) |}
      end
  end.

Definition up (c : Client) (w : state) : bool :=
  existsb (Nat.eqb c) (linked w).

Definition teardown (c : Client) (w : state) : bool * state :=
  if teardown_ok w then
    (true,
     {| attempts := attempts w; teardown_ok := teardown_ok w;
        write_ok := write_ok w;
        linked := filter (fun c' => negb (Nat.eqb c c')) (linked w);
        fresh := fresh w; attempted := attempted w |})
  else (false, w).

Definition write (c : Client) (uuid : string) (data : list byte) (w : state)
  : bool * state :=
  (write_ok w && up c w, w).

Definition transport : Transport :=
  {| world := state;
     establish_connection := fun _ _ => establish;
     is_connected := up;
     client_disconnect := teardown;
     write_gatt_char := write;
     error_text := fun _ => "Not connected" |}.

Definition start (script : list bool) (teardown_ok write_ok : bool) : state :=
  {| attempts := script; teardown_ok := teardown_ok; write_ok := write_ok;
     linked := []; fresh := 0; attempted := 0 |}.

End Link.

(** A lift as the host sets it up, on the scripted link. *)
Definition lift_device : BLEDevice :=
  {| address := "AA:BB:CC:DD:EE:FF"; name := "limoss-lift-1" |}.

Definition boot (w : Link.state) : Sys Link.transport :=
  @mkSys Link.transport (__init__ DOMAIN lift_device) w [].

(** The payloads, byte by byte. *)
Definition close_bits : list byte :=
  [xdd; xa2; x12; xa0; x44; x6a; x3d; xbf; xc7; xa2].
Definition open_bits : list byte :=
  [xdd; x29; xcc; xea; x3f; xee; x31; x9c; x54; x0a].

(** ** Scenarios on the scripted link *)

(** A link on which no connection attempt ever succeeds. *)
Definition dead_link : Link.state := Link.start [] true true.

(** A link that connects at once and carries writes. *)
Definition good_link : Link.state := Link.start [true] true true.

(** A link that connects at once and on which every write fails. *)
Definition deaf_link : Link.state := Link.start [true] true false.


Definition quiet_history : list call :=
  [AsyncAddedToHass; AsyncOpenCover; AsyncUpdate; Disconnect;
   DisconnectedCb 0; SendCmd close_bits; AsyncWillRemoveFromHass].

(** The good link after [async_close_cover], and after [async_open_cover]
    on top of it. *)
Definition closed_once : Sys Link.transport :=
  snd (async_close_cover Link.transport (boot good_link)).

Definition closed_then_opened : Sys Link.transport :=
  snd (async_open_cover Link.transport closed_once).

(** The good link after [connect], and after two [disconnect] on top. *)
Definition connected : Sys Link.transport :=
  after Link.transport (Connect 3) (boot good_link).

Definition disconnected_twice : Sys Link.transport :=
  run Link.transport [Disconnect; Disconnect] connected.

(** ** [device_info] and [async_setup_entry] *)

Record DeviceInfo := mkDeviceInfo {
  identifiers : list (string * string);
  info_name : string;
  manufacturer : string;
  info_model : string
}.

(** The [device_info] property; the one-element set is a one-element list. *)
Definition device_info (e : BreagleBT) : DeviceInfo :=
  {| identifiers := [(DOMAIN, unique_id e)];
     info_name := _name e;
     manufacturer := "Limoss";
     info_model := _model e |}.

(** A [dict] with string keys; [None] is the missing key. *)
Fixpoint dict_get {V : Type} (k : string) (d : list (string * V)) : option V :=
  match d with
  | [] => None
  | (k', v) :: d' => if String.eqb k k' then Some v else dict_get k d'
  end.

Record ConfigEntry := mkConfigEntry {
  entry_id : string;
  title : string;
  data : list (string * string)
}.

(** A device as bleak hands it over: the advertised name may be [None]. *)
Record ScannedDevice := mkScannedDevice {
  scanned_address : string;
  scanned_name : option string
}.

(** What [async_setup_entry] can raise: [KeyError] from the look-up in
    [hass.data], [AttributeError] from [ble_name.startswith] in the
    constructor when the name is [None]. *)
Inductive setup_exn := SetupKeyError | SetupAttributeError.

(** [BreagleBT(name, ble_device)] on such a device. *)
Definition construct (nm : string) (d : ScannedDevice)
  : setup_exn + BreagleBT :=
  match scanned_name d with
  | None => inl SetupAttributeError
  | Some n =>
      inr (__init__ nm {| address := scanned_address d; name := n |})
  end.

Section Setup.

(** The key [CONF_NAME] of [homeassistant.const]. *)
Variable CONF_NAME : string.

(** [x or DOMAIN] on what [dict.get] hands back: [None] and the empty string
    are false. *)
Definition name_or_domain (x : option string) : string :=
  match x with
  | Some EmptyString | None => DOMAIN
  | Some n => n
  end.

(** [async_setup_entry]: the entities handed to [async_add_entities], or
    the exception that ends the call before anything is added. *)
Definition async_setup_entry
    (hass_data : list (string * list (string * ScannedDevice)))
    (config_entry : ConfigEntry) : setup_exn + list BreagleBT :=
  let nm := name_or_domain (dict_get CONF_NAME (data config_entry)) in
  match dict_get DOMAIN hass_data with
  | None => inl SetupKeyError
  | Some devices =>
      match dict_get (entry_id config_entry) devices with
      | None => inl SetupKeyError
      | Some ble_device =>
          match construct nm ble_device with
          | inl e => inl e
          | inr entity => inr [entity]
          end
      end
  end.

End Setup.

(** ** More ways to read a call and a trace *)

(** The calls that send a payload. *)
Definition payload_of (c : call) : option (list byte) :=
  match c with
  | SendCmd bits => Some bits
  | AsyncCloseCover => Some close_bits
  | AsyncOpenCover => Some open_bits
  | _ => None
  end.

Definition is_command (c : call) : bool :=
  match payload_of c with Some _ => true | None => false end.

Definition is_send_cmd (c : call) : bool :=
  match c with SendCmd _ => true | _ => false end.

(** The calls made to the BLE stack, in order. *)
Definition is_stack_call (ev : event) : bool :=
  match ev with
  | EstablishConnection _ _ | ClientDisconnect _ _ | WriteGattChar _ _ _ _ =>
      true
  | _ => false
  end.

Definition stack_log (tr : list event) : list event :=
  filter is_stack_call tr.

(** What the message given to [_LOGGER.error] starts with, where a call
    to the BLE stack failed; the text of the exception follows. *)
Definition failure_prefix (ev : event) : list string :=
  match ev with
  | EstablishConnection _ None => ["Connection: BleakError: "]
  | ClientDisconnect _ false => ["Disconnection: BleakError: "]
  | WriteGattChar _ _ _ false => ["Send Cmd: BleakError: "]
  | _ => []
  end.

(** The errors logged are, one for one and in order, those of the failed
    calls: each is the prefix of its place followed by the text of an
    exception of the BLE stack. *)
Definition well_logged (T : Transport) (tr : list event) : Prop :=
  Forall2
    (fun msg pre =>
       exists w : world T, msg = String.append pre (error_text T w))
    (error_log tr) (flat_map failure_prefix tr).

(** The snapshot the host was given last, if any. *)
Definition last_publish (tr : list event)
  : option (option bool * option bool) :=
  last (map Some (publish_log tr)) None.

(** The host has what the entity has. *)
Definition in_sync {T : Transport} (s : Sys T) : Prop :=
  match last_publish (trace s) with
  | Some p => p = (available (self s), is_closed (self s))
  | None => True
  end.

Definition handle_when_available {T : Transport} (s : Sys T) : Prop :=
  _available (self s) = Some true -> _client (self s) <> None.

(** What of the entity is fixed at construction. *)
Definition identity (e : BreagleBT)
  : BLEDevice * string * string * string :=
  (_ble_device e, _name e, _mac e, _model e).

(** ** More scenarios on the scripted link *)

(** Writes fail, teardowns fail, and only the first connection attempt
    succeeds. *)
Definition bad_link : Link.state := Link.start [true] false false.

Definition lossy_history : list call :=
  [AsyncAddedToHass; AsyncCloseCover; DisconnectedCb 0; AsyncUpdate;
   AsyncOpenCover; Disconnect; SendCmd [x00]; AsyncWillRemoveFromHass].

(** A controller with a session that has dropped. *)
Definition dropped : Sys Link.transport :=
  @mkSys Link.transport (self connected)
    {| Link.attempts := [false; true]; Link.teardown_ok := true;
       Link.write_ok := true; Link.linked := []; Link.fresh := 1;
       Link.attempted := 1 |}
    (trace connected).

Definition sample_entry : ConfigEntry :=
  {| entry_id := "e1"; title := "Lift"; data := [("name", "")] |}.

Definition sample_hass_data
  : list (string * list (string * ScannedDevice)) :=
  [(DOMAIN,
    [("e1", {| scanned_address := "AA:BB:CC:DD:EE:FF";
               scanned_name := Some "limoss-lift-1" |});
     ("e2", {| scanned_address := "AA:BB:CC:DD:EE:00";
               scanned_name := None |})])].

Definition nameless_entry : ConfigEntry :=
  {| entry_id := "e2"; title := "Lift"; data := [] |}.

(** ** Tactics *)

Create Rewrite HintDb logs.

(** Unfolds the monad and splits on what the BLE stack answers. *)
Ltac unfold_methods :=
  cbv beta iota zeta delta
    [connect disconnect diconnected_cb async_update send_cmd
     async_added_to_hass async_will_remove_from_hass
     async_write_ha_state log_bleak_error log_error emit modify_self get_self
     call_establish_connection call_is_connected call_client_disconnect
     call_write_gatt_char bind ret raise try_except_BleakError
     with_client with_available with_is_closed available is_closed
     self net trace _client _ble_device _name _mac _is_closed _available
     _model fst snd negb truthy] in *.

Ltac split_on_stack :=
  match goal with
    | |- context [establish_connection ?T ?d ?m ?n ?w] =>
        destruct (establish_connection T d m n w) as [[?c|] ?w] eqn:?
    | |- context [client_disconnect ?T ?c ?w] =>
        destruct (client_disconnect T c w) as [[|] ?w] eqn:?
    | |- context [write_gatt_char ?T ?c ?u ?d ?w] =>
        destruct (write_gatt_char T c u d w) as [[|] ?w] eqn:?
    | |- context [is_connected ?T ?c ?w] =>
        destruct (is_connected T c w) eqn:?
    end.

Ltac run_method := unfold_methods; repeat (split_on_stack; unfold_methods).

Ltac read_logs :=
  autorewrite with logs;
  cbn [establish_log teardown_log write_log publish_log error_log
       flat_map app];
  rewrite <- ?app_assoc; cbn [app]; rewrite ?app_nil_r.

(** Splits on the handle held and on the availability flag, then runs. *)
Ltac each_state s :=
  destruct s as [[[?c0|] ?dev ?nm ?mac ?cls [[|]|] ?mdl] ?w ?tr];
  run_method.

(** * Properties *)

Example model_of_limoss : model_from_name "limoss-lift-1" = MODEL_TVLIFT.
Proof. reflexivity. Qed.

Example model_of_other : model_from_name "other-device" = MODEL_UNKNOWN.
Proof. reflexivity. Qed.

Example fromhex_skips_spaces :
  bytes_fromhex "DD A2 12 A0 44 6A 3D BF C7 A2" = Some close_bits.
Proof. reflexivity. Qed.

Example fromhex_odd_digits : bytes_fromhex "DDA" = None.
Proof. reflexivity. Qed.

Lemma close_literal : bytes_fromhex CLOSE_HEX = Some close_bits.
Proof. reflexivity. Qed.

Lemma open_literal : bytes_fromhex OPEN_HEX = Some open_bits.
Proof. reflexivity. Qed.

Section Logs.

Variable tr tr' : list event.

Lemma establish_log_app :
  establish_log (tr ++ tr') = establish_log tr ++ establish_log tr'.
Proof. apply flat_map_app. Qed.

Lemma teardown_log_app :
  teardown_log (tr ++ tr') = teardown_log tr ++ teardown_log tr'.
Proof. apply flat_map_app. Qed.

Lemma write_log_app : write_log (tr ++ tr') = write_log tr ++ write_log tr'.
Proof. apply flat_map_app. Qed.

Lemma publish_log_app :
  publish_log (tr ++ tr') = publish_log tr ++ publish_log tr'.
Proof. apply flat_map_app. Qed.

Lemma error_log_app : error_log (tr ++ tr') = error_log tr ++ error_log tr'.
Proof. apply flat_map_app. Qed.

End Logs.

#[local] Hint Rewrite establish_log_app teardown_log_app write_log_app
  publish_log_app error_log_app app_nil_r : logs.

Section Methods.

Context {T : Transport}.

Implicit Types (s : Sys T) (e : BreagleBT) (c : Client).

(** What one [disconnect] does when a handle exists. *)
Lemma disconnect_handle s c :
  _client (self s) = Some c ->
  exists ok w,
    client_disconnect T c (net s) = (ok, w) /\
    disconnect T s =
      (Return tt,
       {| self := with_available (Some false) (self s);
          net := w;
          trace := trace s
                   ++ [ClientDisconnect c ok]
                   ++ (if ok then []
                       else [LogError
                               (String.append "Disconnection: BleakError: "
                                  (error_text T w))])
                   ++ [WriteHaState (Some false) (_is_closed (self s))] |}).
Proof.
  destruct s as [[cl dev nm mac cls av mdl] w tr]; simpl; intros ->.
  destruct (client_disconnect T c w) as [ok w'] eqn:E.
  exists ok, w'. split; [reflexivity|].
  unfold_methods. rewrite E.
  destruct ok; unfold_methods; rewrite <- ?app_assoc; reflexivity.
Qed.

(** [connect] always hands back [None]; what it did shows in the state and
    in the trace only. *)
Lemma connect_returns n s :
  exists s' r,
    connect T n s = (Return tt, s') /\
    establish_log (trace s') = establish_log (trace s) ++ [(4, r)] /\
    write_log (trace s') = write_log (trace s) /\
    _is_closed (self s') = _is_closed (self s) /\
    match r with
    | Some c =>
        _client (self s') = Some c /\ _available (self s') = Some true
    | None =>
        _client (self s') = _client (self s) /\
        _available (self s') =
          match _client (self s) with
          | Some _ => Some false
          | None => _available (self s)
          end
    end.
Proof.
  destruct s as [[[c0|] dev nm mac cls av mdl] w tr]; run_method;
    (do 2 eexists; split; [reflexivity|]); cbn [self trace _client _is_closed _available];
    read_logs; repeat split; reflexivity.
Qed.

(** [send_cmd] hands back a boolean exactly when a handle exists once the
    reconnection has been tried; the boolean is the result of the one write
    it makes.  Without a handle the attribute access raises. *)
Lemma send_cmd_result bits s :
  exists r s',
    send_cmd T bits s = (r, s') /\
    _is_closed (self s') = _is_closed (self s) /\
    match _client (self s') with
    | None =>
        r = Raise AttributeError /\
        write_log (trace s') = write_log (trace s)
    | Some c =>
        exists ok,
          r = Return ok /\
          write_log (trace s') =
            write_log (trace s) ++ [(c, CONTROL_UUID, bits, ok)]
    end /\
    if truthy (_available (self s)) then
      establish_log (trace s') = establish_log (trace s) /\
      _client (self s') = _client (self s) /\
      _available (self s') = _available (self s)
    else
      exists er,
        establish_log (trace s') = establish_log (trace s) ++ [(4, er)] /\
        match er with
        | Some c =>
            _client (self s') = Some c /\ _available (self s') = Some true
        | None =>
            _client (self s') = _client (self s) /\
            _available (self s') =
              match _client (self s) with
              | Some _ => Some false
              | None => _available (self s)
              end
        end.
Proof.
  destruct s as [[[c0|] dev nm mac cls [[|]|] mdl] w tr]; run_method;
    (do 2 eexists; split; [reflexivity|]);
    cbn [self trace _client _is_closed _available truthy];
    read_logs;
    repeat first [reflexivity | split | eexists].
Qed.

Lemma async_close_cover_unfold s :
  async_close_cover T s =
    match send_cmd T close_bits s with
    | (Return _, s1) =>
        (Return tt,
         {| self := with_is_closed (Some true) (self s1);
            net := net s1;
            trace := trace s1
                     ++ [WriteHaState (_available (self s1)) (Some true)] |})
    | (Raise e, s1) => (Raise e, s1)
    end.
Proof.
  unfold async_close_cover. rewrite close_literal.
  unfold bind at 1. destruct (send_cmd T close_bits s) as [[b|e] s1];
    reflexivity.
Qed.

Lemma async_open_cover_unfold s :
  async_open_cover T s =
    match send_cmd T open_bits s with
    | (Return _, s1) =>
        (Return tt,
         {| self := with_is_closed (Some false) (self s1);
            net := net s1;
            trace := trace s1
                     ++ [WriteHaState (_available (self s1)) (Some false)] |})
    | (Raise e, s1) => (Raise e, s1)
    end.
Proof.
  unfold async_open_cover. rewrite open_literal.
  unfold bind at 1. destruct (send_cmd T open_bits s) as [[b|e] s1];
    reflexivity.
Qed.

(** *** What every call respects *)

Lemma send_cmd_keeps_handle bits s :
  _client (self s) <> None -> _client (self (snd (send_cmd T bits s))) <> None.
Proof.
  destruct (send_cmd_result bits s) as (r & s' & E & _ & _ & H).
  rewrite E; cbn [snd]. intros Hc.
  destruct (truthy (_available (self s))).
  - destruct H as (_ & -> & _). exact Hc.
  - destruct H as ([c|] & _ & H).
    + destruct H as [-> _]. discriminate.
    + destruct H as [-> _]. exact Hc.
Qed.

Lemma after_keeps_handle (op : call) s :
  _client (self s) <> None -> _client (self (after T op s)) <> None.
Proof.
  intros Hc. destruct op; unfold after, perform.
  - destruct (connect_returns num_tries s) as (s' & [c|] & E & _ & _ & _ & H);
      rewrite E; cbn [snd]; destruct H as [-> _]; [discriminate | exact Hc].
  - destruct (_client (self s)) as [c|] eqn:Ec; [|congruence].
    destruct (disconnect_handle s c Ec) as (ok & w & _ & E).
    rewrite E; cbn [snd self with_available _client]. congruence.
  - destruct s as [[[c0|] dev nm mac cls av mdl] w tr]; cbn in *;
      congruence.
  - unfold async_update, bind, get_self.
    destruct (negb (truthy (_available (self s)))); [|exact Hc].
    destruct (connect_returns 3 s) as (s' & [c|] & E & _ & _ & _ & H);
      rewrite E; cbn [snd]; destruct H as [-> _]; [discriminate | exact Hc].
  - pose proof (send_cmd_keeps_handle bits s Hc) as H.
    unfold bind. destruct (send_cmd T bits s) as [[b|e] s']; exact H.
  - rewrite async_close_cover_unfold.
    pose proof (send_cmd_keeps_handle close_bits s Hc) as H.
    destruct (send_cmd T close_bits s) as [[b|e] s']; exact H.
  - rewrite async_open_cover_unfold.
    pose proof (send_cmd_keeps_handle open_bits s Hc) as H.
    destruct (send_cmd T open_bits s) as [[b|e] s']; exact H.
  - unfold async_added_to_hass, bind, emit, try_except_BleakError.
    match goal with |- context [connect T 3 ?s0] =>
      destruct (connect_returns 3 s0) as (s' & [c|] & E & _ & _ & _ & H);
        rewrite E; cbn [snd]; destruct H as [-> _];
        [discriminate | exact Hc]
    end.
  - unfold async_will_remove_from_hass, try_except_BleakError.
    destruct (_client (self s)) as [c|] eqn:Ec; [|congruence].
    destruct (disconnect_handle s c Ec) as (ok & w & _ & E).
    rewrite E; cbn [snd self with_available _client]. congruence.
Qed.

Lemma after_keeps_is_closed (op : call) s :
  is_cover_command op = false ->
  _is_closed (self (after T op s)) = _is_closed (self s).
Proof.
  destruct op; cbn [is_cover_command]; try discriminate; intros _;
    unfold after, perform.
  - destruct (connect_returns num_tries s) as (s' & r & E & _ & _ & H & _).
    rewrite E. exact H.
  - destruct (_client (self s)) as [c|] eqn:Ec.
    + destruct (disconnect_handle s c Ec) as (ok & w & _ & E).
      rewrite E. reflexivity.
    + unfold disconnect, bind, get_self. rewrite Ec. reflexivity.
  - reflexivity.
  - unfold async_update, bind, get_self.
    destruct (negb (truthy (_available (self s)))); [|reflexivity].
    destruct (connect_returns 3 s) as (s' & r & E & _ & _ & H & _).
    rewrite E. exact H.
  - destruct (send_cmd_result bits s) as (r & s' & E & H & _).
    unfold bind. rewrite E. destruct r; exact H.
  - unfold async_added_to_hass, bind, emit, try_except_BleakError.
    match goal with |- context [connect T 3 ?s0] =>
      destruct (connect_returns 3 s0) as (s' & r & E & _ & _ & H & _);
        rewrite E; exact H
    end.
  - unfold async_will_remove_from_hass, try_except_BleakError.
    destruct (_client (self s)) as [c|] eqn:Ec.
    + destruct (disconnect_handle s c Ec) as (ok & w & _ & E).
      rewrite E. reflexivity.
    + unfold disconnect, bind, get_self. rewrite Ec. reflexivity.
Qed.

Lemma after_establish_log (op : call) s :
  exists l,
    establish_log (trace (after T op s)) = establish_log (trace s) ++ l /\
    Forall (fun p => fst p = 4) l.
Proof.
  assert (Hconn : forall n s0, exists l,
             establish_log (trace (snd (connect T n s0)))
             = establish_log (trace s0) ++ l /\
             Forall (fun p => fst p = 4) l).
  { intros n s0.
    destruct (connect_returns n s0) as (s' & r & E & H & _).
    rewrite E. exists [(4, r)]. split; [exact H | repeat constructor]. }
  assert (Hdisc : forall s0, exists l,
             establish_log (trace (snd (disconnect T s0)))
             = establish_log (trace s0) ++ l /\
             Forall (fun p => fst p = 4) l).
  { intros s0. exists []. split; [|constructor]. rewrite app_nil_r.
    destruct (_client (self s0)) as [c|] eqn:Ec.
    - destruct (disconnect_handle s0 c Ec) as ([|] & w & _ & E);
        rewrite E; cbn [snd trace]; read_logs; reflexivity.
    - unfold disconnect, bind, get_self. rewrite Ec. reflexivity. }
  assert (Hsend : forall bits s0, exists l,
             establish_log (trace (snd (send_cmd T bits s0)))
             = establish_log (trace s0) ++ l /\
             Forall (fun p => fst p = 4) l).
  { intros bits s0.
    destruct (send_cmd_result bits s0) as (r & s' & E & _ & _ & H).
    rewrite E; cbn [snd]. destruct (truthy (_available (self s0))).
    - exists []. rewrite app_nil_r. split; [apply H | constructor].
    - destruct H as (er & H & _). exists [(4, er)].
      split; [exact H | repeat constructor]. }
  destruct op; unfold after, perform.
  - apply Hconn.
  - apply Hdisc.
  - exists []. split; [|constructor]. cbn. read_logs. reflexivity.
  - unfold async_update, bind, get_self.
    destruct (negb (truthy (_available (self s)))); [apply Hconn|].
    exists []. rewrite app_nil_r. split; [reflexivity | constructor].
  - destruct (Hsend bits s) as (l & H & Hl). exists l. split; [|exact Hl].
    unfold bind. destruct (send_cmd T bits s) as [[b|e] s']; exact H.
  - destruct (Hsend close_bits s) as (l & H & Hl). exists l.
    split; [|exact Hl]. rewrite async_close_cover_unfold.
    destruct (send_cmd T close_bits s) as [[b|e] s']; cbn [snd trace] in *;
      read_logs; exact H.
  - destruct (Hsend open_bits s) as (l & H & Hl). exists l.
    split; [|exact Hl]. rewrite async_open_cover_unfold.
    destruct (send_cmd T open_bits s) as [[b|e] s']; cbn [snd trace] in *;
      read_logs; exact H.
  - unfold async_added_to_hass, bind, emit, try_except_BleakError.
    match goal with |- context [connect T 3 ?s0] =>
      destruct (connect_returns 3 s0) as (s' & r & E & H & _);
        rewrite E; exists [(4, r)]; split; [|repeat constructor];
        cbn [snd]; rewrite H; cbn [trace]; read_logs; reflexivity
    end.
  - unfold async_will_remove_from_hass, try_except_BleakError.
    destruct (Hdisc s) as (l & H & Hl). exists l. split; [|exact Hl].
    destruct (disconnect T s) as [[u|[| |]] s']; exact H.
Qed.

Lemma after_keeps_is_closed_unless_returned (op : call) s :
  is_cover_command op && returned (fst (perform T op s)) = false ->
  _is_closed (self (after T op s)) = _is_closed (self s).
Proof.
  destruct (is_cover_command op) eqn:Ecov;
    [|intros _; apply after_keeps_is_closed; exact Ecov].
  cbn [andb]. unfold after.
  destruct op; try discriminate Ecov; cbn [perform].
  - rewrite async_close_cover_unfold.
    destruct (send_cmd_result close_bits s) as (r & s' & E & H & _).
    rewrite E. destruct r; [discriminate | intros _; exact H].
  - rewrite async_open_cover_unfold.
    destruct (send_cmd_result open_bits s) as (r & s' & E & H & _).
    rewrite E. destruct r; [discriminate | intros _; exact H].
Qed.

(** A cover command that comes back has made exactly one write, with its
    payload, on the control characteristic. *)
Lemma cover_command_writes_once bits (m : M T unit) (v : bool) s s1 :
  (forall s0,
      m s0 =
        match send_cmd T bits s0 with
        | (Return _, s') =>
            (Return tt,
             {| self := with_is_closed (Some v) (self s');
                net := net s';
                trace := trace s'
                         ++ [WriteHaState (_available (self s')) (Some v)] |})
        | (Raise e, s') => (Raise e, s')
        end) ->
  m s = (Return tt, s1) ->
  _is_closed (self s1) = Some v /\
  exists c ok,
    write_log (trace s1) = write_log (trace s) ++ [(c, CONTROL_UUID, bits, ok)].
Proof.
  intros Hm. rewrite Hm.
  destruct (send_cmd_result bits s) as (r & s' & E & _ & H & _).
  rewrite E. destruct r as [b|e]; [|discriminate].
  intros K. injection K as <-. split; [reflexivity|].
  cbn [trace self with_is_closed]. read_logs.
  destruct (_client (self s')) as [c|].
  - destruct H as (ok & _ & H). exists c, ok. exact H.
  - destruct H as [H _]. discriminate H.
Qed.

Lemma run_cons (op : call) cs s :
  run T (op :: cs) s = run T cs (after T op s).
Proof. reflexivity. Qed.

(** ** The command path *)

(** C1 (the code departs from it): on a controller that holds no client
    handle and is not available, when the connection cannot be established
    inside [send_cmd], the call does not hand back [False]: the attribute
    access on [None] raises [AttributeError], which the handler for
    [BleakError] lets through. *)
Theorem send_cmd_raises_without_handle bits s :
  _client (self s) = None ->
  truthy (_available (self s)) = false ->
  fst (establish_connection T (_ble_device (self s)) (_mac (self s)) 4
         (net s)) = None ->
  fst (send_cmd T bits s) = Raise AttributeError.
Proof.
  destruct s as [[cl dev nm mac cls av mdl] w tr].
  cbn [self net _client _available _ble_device _mac].
  intros -> Hav Hest.
  unfold send_cmd, bind, get_self. cbn [self _available].
  rewrite Hav. cbn [negb].
  unfold_methods.
  destruct (establish_connection T dev mac 4 w) as [[c|] w'];
    [discriminate Hest | reflexivity].
Qed.

(** C2: whenever [send_cmd] hands back a boolean, whichever, the cover
    command returns, [is_closed] is the commanded value ([False] after
    [async_open_cover], [True] after [async_close_cover]) and the state is
    published last; and a cover command that returns has always done so. *)
Theorem cover_commands_are_optimistic s :
  (forall b s1,
      send_cmd T open_bits s = (Return b, s1) ->
      exists s2,
        async_open_cover T s = (Return tt, s2) /\
        is_closed (self s2) = Some false /\
        trace s2 = trace s1 ++ [WriteHaState (available (self s2)) (Some false)])
  /\
  (forall b s1,
      send_cmd T close_bits s = (Return b, s1) ->
      exists s2,
        async_close_cover T s = (Return tt, s2) /\
        is_closed (self s2) = Some true /\
        trace s2 = trace s1 ++ [WriteHaState (available (self s2)) (Some true)])
  /\
  (forall s2,
      async_open_cover T s = (Return tt, s2) ->
      is_closed (self s2) = Some false /\
      exists tr, trace s2 = tr ++ [WriteHaState (available (self s2)) (Some false)])
  /\
  (forall s2,
      async_close_cover T s = (Return tt, s2) ->
      is_closed (self s2) = Some true /\
      exists tr, trace s2 = tr ++ [WriteHaState (available (self s2)) (Some true)]).
Proof.
  rewrite async_open_cover_unfold, async_close_cover_unfold.
  split; [|split; [|split]].
  - intros b s1 E. rewrite E. eexists. repeat split.
  - intros b s1 E. rewrite E. eexists. repeat split.
  - destruct (send_cmd T open_bits s) as [[b|e] s1]; [|discriminate].
    intros s2 H. injection H as <-. split; [reflexivity|].
    eexists. reflexivity.
  - destruct (send_cmd T close_bits s) as [[b|e] s1]; [|discriminate].
    intros s2 H. injection H as <-. split; [reflexivity|].
    eexists. reflexivity.
Qed.





(** ** The lifecycle *)

(** C5 (amended): [async_added_to_hass] never lets an exception out.  When
    the connection cannot be established for a controller that was just
    constructed, [available] is still the [None] of the constructor, which
    counts as not available, and no handle is held. *)
Theorem startup_hook_swallows_failure :
  (forall s, exists s', async_added_to_hass T s = (Return tt, s')) /\
  (forall nm dev w tr,
      fst (establish_connection T dev (address dev) 4 w) = None ->
      exists s',
        async_added_to_hass T (mkSys (__init__ nm dev) w tr) = (Return tt, s')
        /\ available (self s') = None
        /\ truthy (available (self s')) = false
        /\ _client (self s') = None).
Proof.
  split.
  - intros s.
    unfold async_added_to_hass, bind, emit, try_except_BleakError.
    match goal with |- context [connect T 3 ?s0] =>
      destruct (connect_returns 3 s0) as (s' & r & E & _)
    end.
    rewrite E. exists s'. reflexivity.
  - intros nm dev w tr Hest.
    unfold __init__. unfold_methods.
    destruct (establish_connection T dev (address dev) 4 w) as [[c|] w'];
      [discriminate Hest|].
    eexists. repeat split.
Qed.

(** C6 (amended): [is_closed] is [None] at construction; no call other
    than the two cover commands changes it, and a cover command that raises
    leaves it alone; so it keeps its value over any history in which no
    cover command came back.  A cover command that comes back sets it,
    whether its write went through or not. *)
Theorem is_closed_set_by_cover_commands_only :
  (forall nm dev, is_closed (__init__ nm dev) = None) /\
  (forall (op : call) s,
      is_cover_command op = false ->
      is_closed (self (after T op s)) = is_closed (self s)) /\
  (forall cs s,
      commanded T cs s = false ->
      is_closed (self (run T cs s)) = is_closed (self s)) /\
  (forall s s',
      async_open_cover T s = (Return tt, s') ->
      is_closed (self s') = Some false) /\
  (forall s s',
      async_close_cover T s = (Return tt, s') ->
      is_closed (self s') = Some true).
Proof.
  split; [reflexivity|].
  split; [exact after_keeps_is_closed|].
  split; [|split].
  - induction cs as [|op cs IH]; intros s; [reflexivity|].
    cbn [commanded]. rewrite run_cons. intros H.
    apply orb_false_elim in H. destruct H as [H1 H2].
    rewrite (IH _ H2). unfold is_closed.
    apply after_keeps_is_closed_unless_returned. exact H1.
  - intros s s' H.
    apply (cover_command_writes_once open_bits (async_open_cover T) false s s'
             async_open_cover_unfold H).
  - intros s s' H.
    apply (cover_command_writes_once close_bits (async_close_cover T) true s s'
             async_close_cover_unfold H).
Qed.

(** C7: [connect] makes one call to the connection helper, with
    [max_attempts=4], whatever [num_tries] is, and comes back; and over any
    history every call the entity makes to the helper carries
    [max_attempts=4]. *)
Theorem connect_uses_four_attempts :
  (forall n s,
      exists s' r,
        connect T n s = (Return tt, s') /\
        establish_log (trace s') = establish_log (trace s) ++ [(4, r)]) /\
  (forall cs s,
      exists l,
        establish_log (trace (run T cs s)) = establish_log (trace s) ++ l /\
        Forall (fun p => fst p = 4) l).
Proof.
  split.
  - intros n s.
    destruct (connect_returns n s) as (s' & r & E & H & _).
    exists s', r. split; assumption.
  - induction cs as [|op cs IH]; intros s.
    + exists []. rewrite app_nil_r. split; [reflexivity | constructor].
    + rewrite run_cons.
      destruct (IH (after T op s)) as (l2 & H2 & F2).
      destruct (after_establish_log op s) as (l1 & H1 & F1).
      exists (l1 ++ l2). rewrite H2, H1, app_assoc.
      split; [reflexivity | apply Forall_app; split; assumption].
Qed.

(** C8: without a client handle [disconnect] returns at once: no exception,
    the same entity, the same BLE stack, nothing published. *)
Theorem disconnect_without_handle s :
  _client (self s) = None ->
  disconnect T s = (Return tt, s).
Proof.
  intros H. unfold disconnect, bind, get_self. rewrite H. reflexivity.
Qed.

(** C9: when [async_close_cover] and then [async_open_cover] come back and
    no write failed in between, [is_closed] ends [False] and exactly two
    writes were made, both on the control characteristic: the close payload
    DD A2 12 A0 44 6A 3D BF C7 A2 first, the open payload
    DD 29 CC EA 3F EE 31 9C 54 0A second; the two differ and have ten bytes
    each. *)
Theorem close_then_open s s1 s2 :
  async_close_cover T s = (Return tt, s1) ->
  async_open_cover T s1 = (Return tt, s2) ->
  failed_writes (trace s2) = failed_writes (trace s) ->
  is_closed (self s2) = Some false /\
  written (trace s2) =
    written (trace s) ++ [(CONTROL_UUID, close_bits); (CONTROL_UUID, open_bits)] /\
  List.length (write_log (trace s2)) = 2 + List.length (write_log (trace s)) /\
  close_bits = [xdd; xa2; x12; xa0; x44; x6a; x3d; xbf; xc7; xa2] /\
  open_bits = [xdd; x29; xcc; xea; x3f; xee; x31; x9c; x54; x0a] /\
  close_bits <> open_bits /\
  List.length close_bits = 10 /\ List.length open_bits = 10.
Proof.
  intros Hc Ho Hf.
  destruct (cover_command_writes_once close_bits (async_close_cover T) true
              s s1 async_close_cover_unfold Hc) as (_ & c1 & ok1 & W1).
  destruct (cover_command_writes_once open_bits (async_open_cover T) false
              s1 s2 async_open_cover_unfold Ho) as (Hcl & c2 & ok2 & W2).
  rewrite W1, <- app_assoc in W2. cbn [app] in W2.
  split; [exact Hcl|].
  unfold failed_writes in Hf. rewrite W2, filter_app in Hf.
  rewrite <- (app_nil_r (filter _ (write_log (trace s)))) in Hf at 2.
  apply app_inv_head in Hf.
  assert (ok1 = true /\ ok2 = true) as [-> ->].
  { destruct ok1, ok2; cbn in Hf; try discriminate Hf. split; reflexivity. }
  split.
  - unfold written. rewrite W2, filter_app, map_app. reflexivity.
  - split; [rewrite W2, length_app; cbn; lia|].
    repeat split; discriminate.
Qed.

(** C10: a handle, once assigned, is never cleared.  No call sets [_client]
    back to [None]; each [disconnect] on a held handle tears down that same
    handle again, marks the entity unavailable and publishes again; and a
    [send_cmd] after which the handle is still the old one has made its
    write through it. *)
Theorem handle_is_never_cleared :
  (forall (op : call) s,
      _client (self s) <> None -> _client (self (after T op s)) <> None) /\
  (forall k s c,
      _client (self s) = Some c ->
      let s' := run T (repeat Disconnect (S k)) s in
      _client (self s') = Some c /\
      available (self s') = Some false /\
      map fst (teardown_log (trace s')) =
        map fst (teardown_log (trace s)) ++ repeat c (S k) /\
      publish_log (trace s') =
        publish_log (trace s)
        ++ repeat (Some false, is_closed (self s)) (S k)) /\
  (forall bits s c r s',
      _client (self s) = Some c ->
      send_cmd T bits s = (r, s') ->
      _client (self s') = Some c ->
      exists ok,
        r = Return ok /\
        write_log (trace s') =
          write_log (trace s) ++ [(c, CONTROL_UUID, bits, ok)]).
Proof.
  split; [exact after_keeps_handle|]. split.
  - assert (Hone : forall s c,
               _client (self s) = Some c ->
               let s' := after T Disconnect s in
               _client (self s') = Some c /\
               available (self s') = Some false /\
               is_closed (self s') = is_closed (self s) /\
               map fst (teardown_log (trace s')) =
                 map fst (teardown_log (trace s)) ++ [c] /\
               publish_log (trace s') =
                 publish_log (trace s) ++ [(Some false, is_closed (self s))]).
    { intros s c Ec. unfold after, perform.
      destruct (disconnect_handle s c Ec) as (ok & w & _ & E).
      rewrite E. cbn [snd self trace with_available _client available
                      _available is_closed _is_closed].
      split; [exact Ec|]. split; [reflexivity|]. split; [reflexivity|].
      destruct ok; read_logs; rewrite ?map_app; split; reflexivity. }
    induction k as [|k IH]; intros s c Ec.
    + cbn [repeat]. rewrite run_cons. cbn [run fold_left].
      destruct (Hone s c Ec) as (H1 & H2 & _ & H4 & H5).
      repeat split; assumption.
    + change (repeat Disconnect (S (S k)))
        with (Disconnect :: repeat Disconnect (S k)).
      rewrite run_cons.
      destruct (Hone s c Ec) as (H1 & _ & H3 & H4 & H5).
      destruct (IH _ c H1) as (K1 & K2 & K4 & K5).
      cbv zeta. split; [exact K1|]. split; [exact K2|]. split.
      * rewrite K4, H4, <- app_assoc. reflexivity.
      * rewrite K5, H5, H3, <- app_assoc. reflexivity.
  - intros bits s c r s' _ E Ec'.
    destruct (send_cmd_result bits s) as (r0 & s0 & E0 & _ & H & _).
    rewrite E in E0. injection E0 as <- <-.
    rewrite Ec' in H. exact H.
Qed.

End Methods.

(** * The entity on the scripted link *)

(** The scripted helper never makes more attempts than it is allowed. *)
Lemma link_establish_bounded max_attempts w :
  Link.attempted (snd (Link.establish max_attempts w))
  <= Link.attempted w + max_attempts.
Proof.
  revert w. induction max_attempts as [|n IH]; intros w; cbn [Link.establish].
  - cbn. lia.
  - destruct (Link.attempts w) as [|[|] rest]; cbn [snd Link.attempted].
    + etransitivity; [apply IH|]. cbn. lia.
    + lia.
    + etransitivity; [apply IH|]. cbn. lia.
Qed.

(** ** Runs *)

(** On the dead link [connect] uses up its four attempts and no more,
    whatever [num_tries] says. *)
Example dead_link_four_attempts :
  Link.attempted (net (snd (connect Link.transport 3 (boot dead_link)))) = 4 /\
  Link.attempted (net (snd (connect Link.transport 9 (boot dead_link)))) = 4.
Proof. split; reflexivity. Qed.

(** A fresh controller on the dead link: [send_cmd] raises. *)
Lemma send_cmd_raises_without_handle_run :
  fst (send_cmd Link.transport open_bits (boot dead_link))
  = Raise AttributeError.
Proof.
  apply send_cmd_raises_without_handle; reflexivity.
Defined.

(** On the deaf link the write of [async_open_cover] fails and
    [is_closed] is [False] all the same. *)
Lemma cover_commands_are_optimistic_run :
  fst (send_cmd Link.transport open_bits (boot deaf_link)) = Return false /\
  is_closed (self (snd (async_open_cover Link.transport (boot deaf_link))))
  = Some false.
Proof.
  split; [reflexivity|].
  destruct (cover_commands_are_optimistic (boot deaf_link)) as [H _].
  destruct (H false (snd (send_cmd Link.transport open_bits (boot deaf_link)))
              eq_refl) as (s2 & E & C & _).
  rewrite E. exact C.
Defined.



(** The start-up hook of a fresh controller on the dead link. *)
Lemma startup_hook_swallows_failure_run :
  fst (async_added_to_hass Link.transport (boot dead_link)) = Return tt /\
  available (self (snd (async_added_to_hass Link.transport (boot dead_link))))
  = None.
Proof.
  destruct (@startup_hook_swallows_failure Link.transport) as [_ H].
  destruct (H DOMAIN lift_device dead_link [] eq_refl) as (s' & E & Hav & _).
  unfold boot. rewrite E. split; [reflexivity | exact Hav].
Defined.

(** A history on the dead link in which the one cover command raises. *)
Lemma is_closed_set_by_cover_commands_only_run :
  commanded Link.transport quiet_history (boot dead_link) = false /\
  is_closed (self (run Link.transport quiet_history (boot dead_link))) = None.
Proof.
  split; [reflexivity|].
  destruct (@is_closed_set_by_cover_commands_only Link.transport)
    as (_ & _ & H & _).
  exact (H quiet_history (boot dead_link) eq_refl).
Defined.

(** [disconnect] on a fresh controller. *)
Lemma disconnect_without_handle_run :
  disconnect Link.transport (boot dead_link) = (Return tt, boot dead_link).
Proof.
  apply disconnect_without_handle. reflexivity.
Defined.

(** Close, then open, on the good link. *)
Lemma close_then_open_run :
  is_closed (self closed_then_opened) = Some false /\
  written (trace closed_then_opened)
  = [(CONTROL_UUID, close_bits); (CONTROL_UUID, open_bits)].
Proof.
  destruct (close_then_open (boot good_link) closed_once closed_then_opened
              eq_refl eq_refl eq_refl) as (H1 & H2 & _).
  split; [exact H1 | exact H2].
Defined.

(** Two [disconnect] in a row on a connected controller. *)
Lemma handle_is_never_cleared_run :
  _client (self disconnected_twice) = Some 0 /\
  available (self disconnected_twice) = Some false /\
  map fst (teardown_log (trace disconnected_twice)) = [0; 0].
Proof.
  destruct (@handle_is_never_cleared Link.transport) as (_ & H & _).
  destruct (H 1 connected 0 eq_refl) as (H1 & H2 & H3 & _).
  split; [exact H1|]. split; [exact H2 | exact H3].
Defined.

(** ** Where the specification departs from the code *)



(** C5: after the failed start-up of a fresh controller [available] is
    [None], not [False]. *)
Lemma startup_failure_leaves_none :
  ~ (fst (establish_connection Link.transport lift_device
            (address lift_device) 4 dead_link) = None ->
     fst (async_added_to_hass Link.transport (boot dead_link)) = Return tt /\
     available (self (snd (async_added_to_hass Link.transport
                             (boot dead_link)))) = Some false).
Proof.
  intros H. destruct (H eq_refl) as [_ K]. vm_compute in K. discriminate K.
Qed.

(** C6: a close command whose write failed has already set [is_closed]. *)
Lemma failed_command_sets_is_closed :
  ~ (written (trace (run Link.transport [AsyncCloseCover] (boot deaf_link)))
     = [] ->
     is_closed (self (run Link.transport [AsyncCloseCover] (boot deaf_link)))
     = None).
Proof.
  intros H. specialize (H eq_refl). vm_compute in H. discriminate H.
Qed.

(** * Beyond open and close: what every call keeps *)

Lemma prefix_app p n :
  String.prefix p n = true <-> exists rest, n = (p ++ rest)%string.
Proof.
  revert n. induction p as [|a p IH]; intros n; cbn [String.prefix].
  - split; [intros _; exists n; reflexivity | destruct n; reflexivity].
  - destruct n as [|b n]; [split; [discriminate | intros [r H]; discriminate H]|].
    cbn [String.prefix].
    destruct (ascii_dec a b) as [->|Hab].
    + rewrite IH. split; intros [r H]; exists r.
      * cbn. rewrite H. reflexivity.
      * cbn in H. injection H as H. exact H.
    + split; [discriminate|]. intros [r H]. cbn in H. injection H as H _.
      congruence.
Qed.

Lemma stack_log_app tr tr' :
  stack_log (tr ++ tr') = stack_log tr ++ stack_log tr'.
Proof. apply filter_app. Qed.

Lemma last_publish_snoc tr ev :
  last_publish (tr ++ [ev]) =
    match ev with
    | WriteHaState a c => Some (a, c)
    | _ => last_publish tr
    end.
Proof.
  unfold last_publish. rewrite publish_log_app, map_app.
  destruct ev; cbn [publish_log flat_map app map]; rewrite ?app_nil_r;
    try reflexivity.
  apply last_last.
Qed.

Lemma run_app {T : Transport} cs cs' (s : Sys T) :
  run T (cs ++ cs') s = run T cs' (run T cs s).
Proof. apply fold_left_app. Qed.

Ltac read_stack :=
  rewrite ?stack_log_app;
  cbn [stack_log filter is_stack_call app];
  rewrite <- ?app_assoc; cbn [app]; rewrite ?app_nil_r.

Section Behaviour.

Context {T : Transport}.

Implicit Types (s : Sys T) (op : call) (cs : list call).

(** *** One call *)

Lemma after_identity op s :
  identity (self (after T op s)) = identity (self s).
Proof.
  destruct op; unfold after, perform;
    rewrite ?async_open_cover_unfold, ?async_close_cover_unfold;
    each_state s; reflexivity.
Qed.

Lemma after_handle_when_available op s :
  handle_when_available s -> handle_when_available (after T op s).
Proof.
  unfold handle_when_available.
  destruct op; unfold after, perform;
    rewrite ?async_open_cover_unfold, ?async_close_cover_unfold;
    each_state s; intros H; try discriminate; try exact H;
    intros K; try discriminate K.
Qed.

Lemma perform_outcome op s :
  fst (perform T op s) =
    match _client (self (after T op s)) with
    | None => if is_command op then Raise AttributeError else Return tt
    | Some _ => Return tt
    end.
Proof.
  destruct op; unfold after, perform;
    rewrite ?async_open_cover_unfold, ?async_close_cover_unfold;
    each_state s; reflexivity.
Qed.

Lemma after_in_sync op s : in_sync s -> in_sync (after T op s).
Proof.
  unfold in_sync.
  destruct op; unfold after, perform;
    rewrite ?async_open_cover_unfold, ?async_close_cover_unfold;
    each_state s; rewrite ?last_publish_snoc; cbv beta iota;
    intros H; first [reflexivity | exact H].
Qed.

Lemma after_well_logged op s :
  well_logged T (trace s) -> well_logged T (trace (after T op s)).
Proof.
  unfold well_logged, error_log.
  destruct op; unfold after, perform;
    rewrite ?async_open_cover_unfold, ?async_close_cover_unfold;
    each_state s; intros H; rewrite ?flat_map_app;
    cbn [flat_map failure_prefix app]; rewrite ?app_nil_r, <- ?app_assoc;
    cbn [app];
    first [ exact H
          | apply Forall2_app; [exact H|];
            repeat (constructor; [eexists; reflexivity|]); constructor ].
Qed.

Lemma after_writes op s :
  map fst (write_log (trace (after T op s))) =
    map fst (write_log (trace s))
    ++ match payload_of op, _client (self (after T op s)) with
       | Some bits, Some c => [(c, CONTROL_UUID, bits)]
       | _, _ => []
       end.
Proof.
  destruct op; unfold after, perform;
    rewrite ?async_open_cover_unfold, ?async_close_cover_unfold;
    each_state s; cbn [payload_of]; read_logs; rewrite ?map_app, ?app_nil_r;
    reflexivity.
Qed.

(** X7: [connect] calls the BLE stack in this order: with no handle, the
    connection helper alone; with a handle that reports connected, one
    [client.disconnect()] on it, then the helper; with a handle that reports
    not connected, [client.disconnect()] on it twice, then the helper.  The
    helper is called with [max_attempts=4] in every case. *)
Lemma connect_stack_calls n s :
  exists s',
    connect T n s = (Return tt, s') /\
    match _client (self s) with
    | None =>
        exists r,
          stack_log (trace s') =
            stack_log (trace s) ++ [EstablishConnection 4 r]
    | Some c =>
        if is_connected T c (net s) then
          exists ok r,
            stack_log (trace s') =
              stack_log (trace s)
              ++ [ClientDisconnect c ok; EstablishConnection 4 r]
        else
          exists ok1 ok2 r,
            stack_log (trace s') =
              stack_log (trace s)
              ++ [ClientDisconnect c ok1; ClientDisconnect c ok2;
                  EstablishConnection 4 r]
    end.
Proof.
  destruct s as [[[c0|] dev nm mac cls av mdl] w tr]; run_method;
    (eexists; split; [reflexivity|]);
    repeat match goal with |- exists _, _ => eexists end;
    read_stack; reflexivity.
Qed.

(** [send_cmd] on an available entity that holds a handle. *)
Lemma send_cmd_available bits s c :
  _available (self s) = Some true ->
  _client (self s) = Some c ->
  exists ok w,
    write_gatt_char T c CONTROL_UUID bits (net s) = (ok, w) /\
    send_cmd T bits s =
      (Return ok,
       {| self := self s; net := w;
          trace := trace s
                   ++ WriteGattChar c CONTROL_UUID bits ok
                      :: (if ok then []
                          else [LogError
                                  (String.append "Send Cmd: BleakError: "
                                     (error_text T w))])
       |}).
Proof.
  destruct s as [[cl dev nm mac cls av mdl] w tr].
  cbn [self _available _client net trace]. intros -> ->.
  destruct (write_gatt_char T c CONTROL_UUID bits w) as [ok w'] eqn:E.
  exists ok, w'. split; [reflexivity|].
  unfold_methods. rewrite E.
  destruct ok; unfold_methods; rewrite <- ?app_assoc; reflexivity.
Qed.

(** *** Histories *)

Lemma run_identity cs s : identity (self (run T cs s)) = identity (self s).
Proof.
  revert s. induction cs as [|op cs IH]; intros s; [reflexivity|].
  rewrite run_cons, IH. apply after_identity.
Qed.

Lemma run_handle_when_available cs s :
  handle_when_available s -> handle_when_available (run T cs s).
Proof.
  revert s. induction cs as [|op cs IH]; intros s H; [exact H|].
  rewrite run_cons. apply IH, after_handle_when_available, H.
Qed.

(** X2: what identifies the entity is fixed at construction: over any
    history [unique_id], [device_info] and the BLE device stay what they
    were, so for a constructed entity [unique_id] is the address of its
    device and [device_info] names it, the manufacturer Limoss and the
    model worked out from the advertised name. *)
Theorem identity_is_fixed :
  (forall cs s,
      unique_id (self (run T cs s)) = unique_id (self s) /\
      device_info (self (run T cs s)) = device_info (self s) /\
      _ble_device (self (run T cs s)) = _ble_device (self s)) /\
  (forall nm dev w tr cs,
      let e := self (run T cs (mkSys (__init__ nm dev) w tr)) in
      unique_id e = address dev /\
      device_info e =
        {| identifiers := [(DOMAIN, address dev)];
           info_name := nm;
           manufacturer := "Limoss";
           info_model := model_from_name (name dev) |}).
Proof.
  assert (H : forall cs s,
             unique_id (self (run T cs s)) = unique_id (self s) /\
             device_info (self (run T cs s)) = device_info (self s) /\
             _ble_device (self (run T cs s)) = _ble_device (self s)).
  { intros cs s. pose proof (run_identity cs s) as H.
    unfold identity in H. injection H as H1 H2 H3 H4.
    unfold device_info, unique_id. rewrite H1, H2, H3, H4.
    repeat split. }
  split; [exact H|].
  intros nm dev w tr cs e. subst e.
  destruct (H cs (mkSys (__init__ nm dev) w tr)) as (H1 & H2 & _).
  rewrite H1, H2. split; reflexivity.
Qed.

(** X3: an entity that reports available holds a client handle: the
    property is kept by every call, and it holds after any history of a
    constructed entity. *)
Theorem available_implies_handle :
  (forall cs s,
      (available (self s) = Some true -> _client (self s) <> None) ->
      available (self (run T cs s)) = Some true ->
      _client (self (run T cs s)) <> None) /\
  (forall nm dev w tr cs,
      available (self (run T cs (mkSys (__init__ nm dev) w tr))) = Some true ->
      _client (self (run T cs (mkSys (__init__ nm dev) w tr))) <> None).
Proof.
  split.
  - intros cs s H. exact (run_handle_when_available cs s H).
  - intros nm dev w tr cs.
    apply (run_handle_when_available cs (mkSys (__init__ nm dev) w tr)).
    intros H. discriminate H.
Qed.

(** X4: no call lets a [BleakError] out.  [connect], [disconnect], the
    disconnect callback, [async_update] and the two lifecycle hooks always
    return.  [send_cmd] and the two cover commands raise if and only if no
    handle is held once they are through, and return if and only if one
    is; the exception is [AttributeError], and then no handle was held
    before the call either. *)
Theorem only_commands_raise op s :
  (is_command op = false -> fst (perform T op s) = Return tt) /\
  (is_command op = true ->
   (fst (perform T op s) = Raise AttributeError <->
    _client (self (after T op s)) = None) /\
   (fst (perform T op s) = Return tt <->
    _client (self (after T op s)) <> None)) /\
  (forall e,
      fst (perform T op s) = Raise e ->
      e = AttributeError /\ is_command op = true /\
      _client (self (after T op s)) = None /\ _client (self s) = None).
Proof.
  pose proof (perform_outcome op s) as H.
  pose proof (after_keeps_handle op s) as K.
  destruct (_client (self (after T op s))) as [c|] eqn:Ec.
  - split; [intros _; exact H|]. split.
    + intros _. rewrite H. split; split; try discriminate; reflexivity.
    + intros e He. rewrite H in He. discriminate He.
  - destruct (is_command op) eqn:Ecmd.
    + split; [discriminate|]. split.
      * intros _. rewrite H. split; split; try reflexivity; try discriminate.
        intros Hn. exfalso. apply Hn. reflexivity.
      * intros e He. rewrite H in He. injection He as <-.
        repeat split.
        destruct (_client (self s)) as [c|]; [|reflexivity].
        exfalso. apply K; [discriminate | reflexivity].
    + split; [intros _; exact H|]. split; [discriminate|].
      intros e He. rewrite H in He. discriminate He.
Qed.

(** X5: after any history of a constructed entity, if the entity reports
    available then [send_cmd] hands back a boolean and both cover commands
    return: the [AttributeError] of the missing handle cannot occur. *)
Theorem available_commands_return nm dev w tr cs bits :
  let s := run T cs (mkSys (__init__ nm dev) w tr) in
  available (self s) = Some true ->
  (exists ok s', send_cmd T bits s = (Return ok, s')) /\
  fst (async_open_cover T s) = Return tt /\
  fst (async_close_cover T s) = Return tt.
Proof.
  intros s Hav.
  assert (Hc : _client (self s) <> None).
  { apply (run_handle_when_available cs (mkSys (__init__ nm dev) w tr));
      [intros H; discriminate H | exact Hav]. }
  destruct (_client (self s)) as [c|] eqn:Ec; [clear Hc | congruence].
  split; [|split].
  - destruct (send_cmd_available bits s c Hav Ec) as (ok & w' & _ & E).
    eexists _, _. exact E.
  - rewrite async_open_cover_unfold.
    destruct (send_cmd_available open_bits s c Hav Ec) as (ok & w' & _ & E).
    rewrite E. reflexivity.
  - rewrite async_close_cover_unfold.
    destruct (send_cmd_available close_bits s c Hav Ec) as (ok & w' & _ & E).
    rewrite E. reflexivity.
Qed.

(** X6: the host is never left with a stale state: if the snapshot
    published last matches the entity, it still does after any history; so
    for a constructed entity, whenever something has been published, the
    last snapshot is the entity's current [available] and [is_closed]. *)
Theorem host_view_in_sync :
  (forall cs s, in_sync s -> in_sync (run T cs s)) /\
  (forall nm dev w cs p,
      let s := run T cs (mkSys (__init__ nm dev) w []) in
      last_publish (trace s) = Some p ->
      p = (available (self s), is_closed (self s))).
Proof.
  assert (H : forall cs s, in_sync s -> in_sync (run T cs s)).
  { induction cs as [|op cs IH]; intros s Hs; [exact Hs|].
    rewrite run_cons. apply IH, after_in_sync, Hs. }
  split; [exact H|].
  intros nm dev w cs p s Hp.
  assert (Hs : in_sync s) by (apply H; exact I).
  unfold in_sync in Hs. rewrite Hp in Hs. exact Hs.
Qed.

(** X8: while the entity reports available, [send_cmd] never reconnects
    and never changes the entity, however many payloads are sent and
    whether the writes fail or not: each goes through the held handle to
    the control characteristic, no connection is established or torn down,
    nothing is published, and [available] stays [True]. *)
Theorem sends_while_available cmds s c :
  _available (self s) = Some true ->
  _client (self s) = Some c ->
  self (run T (map SendCmd cmds) s) = self s /\
  map fst (write_log (trace (run T (map SendCmd cmds) s))) =
    map fst (write_log (trace s))
    ++ map (fun bits => (c, CONTROL_UUID, bits)) cmds /\
  establish_log (trace (run T (map SendCmd cmds) s)) = establish_log (trace s)
  /\
  teardown_log (trace (run T (map SendCmd cmds) s)) = teardown_log (trace s)
  /\
  publish_log (trace (run T (map SendCmd cmds) s)) = publish_log (trace s).
Proof.
  revert s. induction cmds as [|bits cmds IH]; intros s Hav Hc.
  - cbn [map run fold_left]. rewrite app_nil_r. repeat split.
  - cbn [map]. rewrite run_cons.
    destruct (send_cmd_available bits s c Hav Hc) as (ok & w & _ & E).
    assert (Es : after T (SendCmd bits) s =
                 {| self := self s; net := w;
                    trace := trace s
                             ++ WriteGattChar c CONTROL_UUID bits ok
                                :: (if ok then []
                                    else [LogError
                                            (String.append
                                               "Send Cmd: BleakError: "
                                               (error_text T w))]) |}).
    { unfold after, perform, bind. rewrite E. reflexivity. }
    rewrite Es.
    match goal with |- context [run T _ ?s1] =>
      destruct (IH s1 Hav Hc) as (H1 & H2 & H3 & H4 & H5)
    end.
    rewrite H1, H2, H3, H4, H5. cbn [self trace].
    destruct ok; read_logs; rewrite ?map_app, <- ?app_assoc; repeat split.
Qed.

(** X9: the entity writes nothing but commands.  Over any history every
    write goes to the control characteristic, there is at most one write
    per [send_cmd] or cover command and none for any other call, and as
    long as [send_cmd] is reached through the cover commands only, every
    payload is the close payload or the open payload. *)
Theorem writes_are_commands cs s :
  exists l,
    map fst (write_log (trace (run T cs s))) =
      map fst (write_log (trace s)) ++ l /\
    Forall (fun wr => snd (fst wr) = CONTROL_UUID) l /\
    List.length l <= List.length (filter is_command cs) /\
    (forallb (fun c => negb (is_send_cmd c)) cs = true ->
     Forall (fun wr => snd wr = close_bits \/ snd wr = open_bits) l).
Proof.
  revert s. induction cs as [|op cs IH]; intros s.
  - exists []. rewrite app_nil_r. repeat split; constructor.
  - rewrite run_cons. destruct (IH (after T op s)) as (l & H1 & H2 & H3 & H4).
    rewrite H1, (after_writes op s), <- app_assoc.
    eexists. split; [reflexivity|].
    cbn [filter forallb]. unfold is_command at 1.
    destruct (payload_of op) as [bits|] eqn:Ep;
      [destruct (_client (self (after T op s))) as [c|]|]; cbn [app].
    + split; [constructor; [reflexivity | exact H2]|].
      split; [cbn [List.length]; lia|].
      intros Hb. apply andb_prop in Hb. destruct Hb as [Hop Hcs].
      constructor; [|exact (H4 Hcs)].
      destruct op; try discriminate Ep; try discriminate Hop;
        injection Ep as <-; cbn [snd]; [left | right]; reflexivity.
    + split; [exact H2|]. split; [cbn [List.length]; lia|].
      intros Hb. apply andb_prop in Hb. exact (H4 (proj2 Hb)).
    + split; [exact H2|]. split; [exact H3|].
      intros Hb. apply andb_prop in Hb. exact (H4 (proj2 Hb)).
Qed.

(** X10: every failed call to the BLE stack is logged as an error, once,
    by a message that starts with the words of the place it failed in
    (Connection, Disconnection or Send Cmd, then BleakError and a colon)
    and goes on with the text of the exception; nothing else is logged at
    that level.  Over any history the error log matches the failed calls
    one for one, in order. *)
Theorem failures_are_logged :
  (forall cs s,
      well_logged T (trace s) -> well_logged T (trace (run T cs s))) /\
  (forall nm dev w cs,
      Forall2
        (fun msg pre =>
           exists w' : world T,
             msg = String.append pre (error_text T w'))
        (error_log (trace (run T cs (mkSys (__init__ nm dev) w []))))
        (flat_map failure_prefix
           (trace (run T cs (mkSys (__init__ nm dev) w [])))) /\
      List.length (error_log (trace (run T cs (mkSys (__init__ nm dev) w []))))
      = List.length
          (filter (fun ev => match failure_prefix ev with
                             | [] => false
                             | _ => true
                             end)
             (trace (run T cs (mkSys (__init__ nm dev) w []))))).
Proof.
  assert (H : forall cs s,
             well_logged T (trace s) -> well_logged T (trace (run T cs s))).
  { induction cs as [|op cs IH]; intros s Hs; [exact Hs|].
    rewrite run_cons. apply IH, after_well_logged, Hs. }
  split; [exact H|].
  intros nm dev w cs.
  assert (K : well_logged T (trace (run T cs (mkSys (__init__ nm dev) w []))))
    by (apply H; constructor).
  split; [exact K|].
  rewrite (Forall2_length K). clear K H.
  induction (trace (run T cs (mkSys (__init__ nm dev) w []))) as [|ev tr IH];
    [reflexivity|].
  cbn [flat_map filter]. rewrite length_app, IH.
  destruct ev as [m [c|]|c [|]|c u d [|]|a b|m| |f]; reflexivity.
Qed.

(** X11: after the disconnect callback the next [async_update] always tries
    to reconnect, once, with [max_attempts=4], whichever client the
    callback named: if a session is established the entity holds the new
    handle and is available, otherwise it keeps the handle it had and is
    [False]. *)
Theorem drop_then_update_reconnects s (cl : Client) :
  exists r,
    establish_log (trace (run T [DisconnectedCb cl; AsyncUpdate] s)) =
      establish_log (trace s) ++ [(4, r)] /\
    match r with
    | Some c =>
        _client (self (run T [DisconnectedCb cl; AsyncUpdate] s)) = Some c /\
        available (self (run T [DisconnectedCb cl; AsyncUpdate] s)) = Some true
    | None =>
        _client (self (run T [DisconnectedCb cl; AsyncUpdate] s)) =
          _client (self s) /\
        available (self (run T [DisconnectedCb cl; AsyncUpdate] s)) =
          Some false
    end.
Proof.
  rewrite run_cons. cbn [run fold_left].
  set (s1 := after T (DisconnectedCb cl) s).
  assert (Hav : _available (self s1) = Some false) by reflexivity.
  assert (Hcl : _client (self s1) = _client (self s)) by reflexivity.
  assert (Hlog : establish_log (trace s1) = establish_log (trace s)).
  { subst s1. unfold after, perform. unfold_methods. read_logs. reflexivity. }
  assert (Eu : after T AsyncUpdate s1 = snd (connect T 3 s1)).
  { unfold after, perform, async_update, bind, get_self.
    rewrite Hav. reflexivity. }
  rewrite Eu.
  destruct (connect_returns 3 s1) as (s2 & r & E & Hest & _ & _ & H).
  rewrite E. cbn [snd]. exists r. rewrite Hest, Hlog.
  split; [reflexivity|].
  destruct r as [c|]; [exact H|].
  destruct H as [H1 H2]. rewrite H1, Hcl. split; [reflexivity|].
  unfold available. rewrite H2, Hav.
  destruct (_client (self s1)); reflexivity.
Qed.

End Behaviour.

(** * Set-up *)

(** X1: the model is Breagle exactly for the advertised names that start
    with limoss (in lower case), and Unknown for every other name. *)
Theorem model_from_name_limoss n :
  (model_from_name n = MODEL_TVLIFT <->
   exists rest, n = ("limoss" ++ rest)%string) /\
  (model_from_name n = MODEL_UNKNOWN <->
   ~ exists rest, n = ("limoss" ++ rest)%string).
Proof.
  unfold model_from_name.
  pose proof (prefix_app "limoss" n) as H.
  destruct (String.prefix "limoss" n).
  - split; split.
    + intros _. apply H. reflexivity.
    + reflexivity.
    + discriminate.
    + intros K. exfalso. apply K, H. reflexivity.
  - split; split.
    + discriminate.
    + intros K. apply H in K. discriminate K.
    + intros _ K. apply H in K. discriminate K.
    + reflexivity.
Qed.

(** X12: [async_setup_entry] raises [KeyError] exactly when no device is
    stored for the entry, and [AttributeError] exactly when the stored
    device has no advertised name; otherwise it adds one entity, for the
    stored device, whose name is the configured name, or breagle when the
    name is missing or empty, and which starts without handle, with
    [available] and [is_closed] unknown. *)
Theorem setup_entry_adds_one_entity CONF_NAME hass_data config_entry :
  (async_setup_entry CONF_NAME hass_data config_entry = inl SetupKeyError <->
   forall devices,
     dict_get DOMAIN hass_data = Some devices ->
     dict_get (entry_id config_entry) devices = None) /\
  (async_setup_entry CONF_NAME hass_data config_entry
   = inl SetupAttributeError <->
   exists devices d,
     dict_get DOMAIN hass_data = Some devices /\
     dict_get (entry_id config_entry) devices = Some d /\
     scanned_name d = None) /\
  (forall added,
      async_setup_entry CONF_NAME hass_data config_entry = inr added ->
      exists devices d n e,
        dict_get DOMAIN hass_data = Some devices /\
        dict_get (entry_id config_entry) devices = Some d /\
        scanned_name d = Some n /\
        added = [e] /\
        _ble_device e = {| address := scanned_address d; name := n |} /\
        unique_id e = scanned_address d /\
        _model e = model_from_name n /\
        _name e <> EmptyString /\
        (forall cn,
            dict_get CONF_NAME (data config_entry) = Some cn ->
            cn <> EmptyString -> _name e = cn) /\
        (dict_get CONF_NAME (data config_entry) = None -> _name e = DOMAIN) /\
        (dict_get CONF_NAME (data config_entry) = Some EmptyString ->
         _name e = DOMAIN) /\
        _client e = None /\ available e = None /\ is_closed e = None).
Proof.
  unfold async_setup_entry, construct.
  destruct (dict_get DOMAIN hass_data) as [devices|].
  2:{ split; [split; [discriminate | reflexivity]|].
      split; [split; [discriminate | intros (ds & d & H & _); discriminate H]|].
      discriminate. }
  destruct (dict_get (entry_id config_entry) devices) as [d|] eqn:Ed.
  2:{ split; [split; [intros _ ds H; injection H as <-; exact Ed
                     | reflexivity]|].
      split; [split; [discriminate|]|discriminate].
      intros (ds & d & H & H' & _). injection H as <-. congruence. }
  destruct (scanned_name d) as [n|] eqn:En.
  - split; [split; [discriminate|]|].
    { intros H. specialize (H devices eq_refl). congruence. }
    split; [split; [discriminate|]|].
    { intros (ds & d' & H & H' & H''). injection H as <-. congruence. }
    intros added H. injection H as <-.
    exists devices, d, n. eexists.
    split; [reflexivity|]. split; [exact Ed|]. split; [exact En|].
    split; [reflexivity|].
    cbn [__init__ _ble_device unique_id _mac _name _client available
         _available is_closed _is_closed _model address name].
    do 3 (split; [reflexivity|]).
    destruct (dict_get CONF_NAME (data config_entry)) as [[|a n']|];
      cbn [name_or_domain].
    + split; [discriminate|].
      split; [intros cn H; injection H as <-; congruence|].
      split; [discriminate|]. repeat split.
    + split; [discriminate|].
      split; [intros cn H; injection H as <-; reflexivity|].
      split; [discriminate|]. split; [discriminate|]. repeat split.
    + split; [discriminate|]. split; [discriminate|]. repeat split.
  - split; [split; [discriminate|]|].
    { intros H. specialize (H devices eq_refl). congruence. }
    split; [split; [intros _; exists devices, d; repeat split; assumption
                   | reflexivity]|].
    discriminate.
Qed.

(** ** Runs on the scripted link *)

(** A name that starts with limoss. *)
Lemma model_from_name_limoss_run :
  model_from_name (name lift_device) = MODEL_TVLIFT.
Proof.
  apply (proj1 (model_from_name_limoss (name lift_device))).
  exists "-lift-1". reflexivity.
Defined.

(** Connected through the start-up hook: available, and a handle is held. *)
Lemma available_implies_handle_run :
  available (self (run Link.transport [AsyncAddedToHass] (boot good_link)))
  = Some true /\
  _client (self (run Link.transport [AsyncAddedToHass] (boot good_link)))
  <> None.
Proof.
  split; [reflexivity|].
  destruct (@available_implies_handle Link.transport) as [_ H].
  exact (H DOMAIN lift_device good_link [] [AsyncAddedToHass] eq_refl).
Defined.

(** [connect] on the dead link returns; [async_open_cover] on it raises,
    no handle being held. *)
Lemma only_commands_raise_run :
  fst (perform Link.transport (Connect 3) (boot dead_link)) = Return tt /\
  fst (perform Link.transport AsyncOpenCover (boot dead_link))
  = Raise AttributeError.
Proof.
  split.
  - destruct (only_commands_raise (Connect 3) (boot dead_link)) as [H _].
    exact (H eq_refl).
  - destruct (only_commands_raise AsyncOpenCover (boot dead_link))
      as (_ & H & _).
    apply (proj1 (H eq_refl)). reflexivity.
Defined.

(** After the start-up hook on the good link the cover commands return. *)
Lemma available_commands_return_run :
  fst (async_open_cover Link.transport
         (run Link.transport [AsyncAddedToHass] (boot good_link)))
  = Return tt.
Proof.
  destruct (available_commands_return (T := Link.transport) DOMAIN lift_device
              good_link [] [AsyncAddedToHass] open_bits eq_refl)
    as (_ & H & _).
  exact H.
Defined.

(** A history with failing teardowns and writes: the host has the state the
    entity ends in. *)
Lemma host_view_in_sync_run :
  last_publish (trace (run Link.transport lossy_history (boot bad_link)))
  = Some (Some false, Some false) /\
  (Some false, Some false)
  = (available (self (run Link.transport lossy_history (boot bad_link))),
     is_closed (self (run Link.transport lossy_history (boot bad_link)))).
Proof.
  split; [reflexivity|].
  destruct (@host_view_in_sync Link.transport) as [_ H].
  exact (H DOMAIN lift_device bad_link lossy_history
           (Some false, Some false) eq_refl).
Defined.

(** Two payloads sent on a connected controller. *)
Lemma sends_while_available_run :
  self (run Link.transport (map SendCmd [open_bits; close_bits]) connected)
  = self connected /\
  establish_log
    (trace (run Link.transport (map SendCmd [open_bits; close_bits])
              connected))
  = establish_log (trace connected).
Proof.
  destruct (sends_while_available (T := Link.transport)
              [open_bits; close_bits] connected 0 eq_refl eq_refl)
    as (H1 & _ & H3 & _).
  split; [exact H1 | exact H3].
Defined.

(** A history that reaches [send_cmd] through the cover commands only. *)
Lemma writes_are_commands_run :
  Forall (fun wr => snd wr = close_bits \/ snd wr = open_bits)
    (map fst
       (write_log
          (trace (run Link.transport
                    [AsyncAddedToHass; AsyncCloseCover; AsyncOpenCover]
                    (boot good_link))))).
Proof.
  destruct (writes_are_commands (T := Link.transport)
              [AsyncAddedToHass; AsyncCloseCover; AsyncOpenCover]
              (boot good_link)) as (l & H1 & _ & _ & H4).
  rewrite H1. cbn [boot trace write_log flat_map map app].
  exact (H4 eq_refl).
Defined.

(** The errors logged over a history with failing teardowns and writes. *)
Lemma failures_are_logged_run :
  well_logged Link.transport
    (trace (run Link.transport lossy_history (boot bad_link))).
Proof.
  destruct (@failures_are_logged Link.transport) as [H _].
  apply H. constructor.
Defined.

(** An entry with an empty name, for a stored device; and an entry whose
    stored device has no name. *)
Lemma setup_entry_adds_one_entity_run :
  (exists e,
      async_setup_entry "name" sample_hass_data sample_entry = inr [e] /\
      _name e = DOMAIN /\ unique_id e = "AA:BB:CC:DD:EE:FF") /\
  async_setup_entry "name" sample_hass_data nameless_entry
  = inl SetupAttributeError.
Proof.
  split.
  - destruct (setup_entry_adds_one_entity "name" sample_hass_data
                sample_entry) as (_ & _ & H).
    destruct (H _ eq_refl)
      as (devs & d & n & e & _ & _ & _ & He & _ & _ & _ & _ & _ & _ & Hn & _).
    exists e. split; [rewrite <- He; reflexivity|].
    injection He as <-. split; reflexivity.
  - destruct (setup_entry_adds_one_entity "name" sample_hass_data
                nameless_entry) as (_ & H & _).
    apply (proj2 H). eexists _, _. repeat split.
Defined.

(** A dropped session: [connect] tears the old handle down twice before it
    asks for a new session. *)
Example dropped_session_torn_down_twice :
  stack_log (trace (snd (connect Link.transport 3 dropped)))
  = stack_log (trace dropped)
    ++ [ClientDisconnect 0 true; ClientDisconnect 0 true;
        EstablishConnection 4 (Some 1)].
Proof. reflexivity. Qed.
